(** * sandy-ai: the think/answer splitter of [src/app/components/Chat.tsx]

    A shallow embedding of the client-side parser that splits the text of an
    assistant message into a "thinking" part and an "answer" part, of the
    streaming state it updates, and of the choice the render loop makes
    between the streaming state and [parseMessage].

    JavaScript strings are sequences of UTF-16 code units; they are modelled
    as lists of code units, so that [String.prototype.trim] can be given its
    real white-space set. *)

From Stdlib Require Import Ascii String.
From Stdlib Require Import List NArith Bool Arith Lia.
From Stdlib Require DecimalString DecimalPos DecimalN.
Import ListNotations.
Local Open Scope list_scope.
Local Open Scope N_scope.

(** ** Strings *)

Definition codeUnit := N.
Definition jsstring := list codeUnit.

(** An ASCII literal as a JavaScript string. *)
Fixpoint js (s : string) : jsstring :=
  match s with
  | EmptyString => []
  | String a s' => N_of_ascii a :: js s'
  end.

(** The code units [String.prototype.trim] strips: ECMAScript's WhiteSpace
    (TAB, VT, FF, SP, NBSP, ZWNBSP and the Unicode space separators) and
    LineTerminator (LF, CR, LS, PS). *)
Definition isWhiteSpace (c : codeUnit) : bool :=
  ((9 <=? c) && (c <=? 13))
  || (c =? 32) || (c =? 160) || (c =? 5760)
  || ((8192 <=? c) && (c <=? 8202))
  || (c =? 8232) || (c =? 8233) || (c =? 8239) || (c =? 8287)
  || (c =? 12288) || (c =? 65279).

Fixpoint trimStart (s : jsstring) : jsstring :=
  match s with
  | [] => []
  | c :: s' => if isWhiteSpace c then trimStart s' else s
  end.

Definition trimEnd (s : jsstring) : jsstring := rev (trimStart (rev s)).

(** [s.trim()] *)
Definition trim (s : jsstring) : jsstring := trimEnd (trimStart s).

(** [pat] is written at the front of [s]. *)
Fixpoint startsWith (pat s : jsstring) : bool :=
  match pat, s with
  | [], _ => true
  | _ :: _, [] => false
  | x :: pat', y :: s' => (x =? y) && startsWith pat' s'
  end.

(** [s.includes(pat)] *)
Fixpoint includes (pat s : jsstring) : bool :=
  startsWith pat s ||
  match s with
  | [] => false
  | _ :: s' => includes pat s'
  end.

(** The text before and the text after the first occurrence of [pat] in [s]. *)
Fixpoint splitFirst (pat s : jsstring) : option (jsstring * jsstring) :=
  if startsWith pat s then Some ([], skipn (length pat) s)
  else match s with
       | [] => None
       | c :: s' =>
           match splitFirst pat s' with
           | Some (before, after) => Some (c :: before, after)
           | None => None
           end
       end.

(** [s.replace(pat, rep)] for a string pattern: only the first occurrence is
    replaced.  The source only passes the replacement [''], which holds no
    [$] pattern. *)
Definition replaceFirst (pat rep s : jsstring) : jsstring :=
  match splitFirst pat s with
  | Some (before, after) => before ++ rep ++ after
  | None => s
  end.

(** ** The delimiters and the regular expression *)

Definition openTag : jsstring := js "<think>".
Definition closeTag : jsstring := js "</think>".

Arguments openTag : simpl never.
Arguments closeTag : simpl never.

(** [/<think>([^]*?)<\/think>/] tried at the front of [s]: the literal
    [<think>], then the lazy [[^]*?] (any code unit, line terminators
    included) which takes as little as lets [</think>] follow.  The result is
    the capture group and the text after the match. *)
Definition thinkRegexAt (s : jsstring) : option (jsstring * jsstring) :=
  if startsWith openTag s then splitFirst closeTag (skipn (length openTag) s)
  else None.

(** The regular expression run over [s] (no [g] flag): the leftmost position
    at which it matches.  The result is the text before the match, the
    capture group [thinkMatch[1]] and the text after the match. *)
Fixpoint thinkRegexExec (s : jsstring) : option (jsstring * jsstring * jsstring) :=
  match thinkRegexAt s with
  | Some (group, after) => Some ([], group, after)
  | None =>
      match s with
      | [] => None
      | c :: s' =>
          match thinkRegexExec s' with
          | Some (before, group, after) => Some (c :: before, group, after)
          | None => None
          end
      end
  end.

(** [content.match(thinkRegex)], of which the source reads only index 1. *)
Definition matchThink (s : jsstring) : option jsstring :=
  match thinkRegexExec s with
  | Some (_, group, _) => Some group
  | None => None
  end.

(** [content.replace(thinkRegex, '')] *)
Definition replaceThink (s : jsstring) : jsstring :=
  match thinkRegexExec s with
  | Some (before, _, after) => before ++ after
  | None => s
  end.

(** ** Messages and the streaming state *)

(** Modelled from the spec: the [Message] type of the [ai] package is not
    part of the sources; the spec gives a message a role, one of [user],
    [assistant], [system], and a text content. *)
Inductive Role := user | assistant | system.

Record Message := mkMessage { role : Role; msgContent : jsstring }.

Record StreamingState := mkState {
  thinking : jsstring;
  content : jsstring;
  isThinking : bool
}.

(** The value given to [useState] and set again by [onFinish]. *)
Definition initialState : StreamingState :=
  {| thinking := []; content := []; isThinking := true |}.

(** [onFinish] of [useChat]. *)
Definition onFinish (st : StreamingState) : StreamingState :=
  {| thinking := []; content := []; isThinking := true |}.

(** The four branches of the streaming effect, for the text [buffer] of the
    last message.  [st] is both the [streamingState] the effect closes over
    and the [prev] the functional updates receive.  The clock kept in
    [thinkingStartTime] is written here and read nowhere; it is left out. *)
Definition streamStep (st : StreamingState) (buffer : jsstring) : StreamingState :=
  match matchThink buffer with
  | Some group =>
      {| thinking := trim group;
         content := trim (replaceThink buffer);
         isThinking := false |}
  | None =>
      if includes openTag buffer then
        {| thinking := trim (replaceFirst openTag [] buffer);
           content := [];
           isThinking := true |}
      else if isThinking st then
        {| thinking := trim buffer;
           content := content st;
           isThinking := isThinking st |}
      else
        {| thinking := thinking st;
           content := trim buffer;
           isThinking := isThinking st |}
  end.

(** The effect that runs when [messages] changes. *)
Definition streamingEffect (st : StreamingState) (messages : list Message)
  : StreamingState :=
  if (length messages =? 0)%nat then st
  else match nth_error messages (length messages - 1)%nat with
       | None => st
       | Some lastMessage =>
           match role lastMessage with
           | assistant => streamStep st (msgContent lastMessage)
           | _ => st
           end
       end.

(** What the component reacts to: a new value of [messages], or the end of
    the stream. *)
Inductive Event :=
| MessagesChanged (messages : list Message)
| StreamFinished.

Definition handle (st : StreamingState) (e : Event) : StreamingState :=
  match e with
  | MessagesChanged messages => streamingEffect st messages
  | StreamFinished => onFinish st
  end.

(** The state after a sequence of events. *)
Definition run (st : StreamingState) (es : list Event) : StreamingState :=
  fold_left handle es st.

(** The states a message goes through while its chunks arrive: every chunk is
    appended to the buffer and the step is run on the whole buffer. *)
Fixpoint feed (st : StreamingState) (buffer : jsstring) (chunks : list jsstring)
  : list StreamingState :=
  match chunks with
  | [] => []
  | chunk :: chunks' =>
      let buffer' := buffer ++ chunk in
      let st' := streamStep st buffer' in
      st' :: feed st' buffer' chunks'
  end.

(** ** Completed messages *)

Record ParsedMessage := mkParsed {
  parsedThinking : option jsstring;
  parsedContent : jsstring
}.

Definition parseMessage (buffer : jsstring) : ParsedMessage :=
  match matchThink buffer with
  | Some group =>
      {| parsedThinking := Some (trim group);
         parsedContent := trim (replaceThink buffer) |}
  | None => {| parsedThinking := None; parsedContent := trim buffer |}
  end.

(** A string in a boolean position. *)
Definition truthy (s : jsstring) : bool :=
  match s with [] => false | _ :: _ => true end.

(** What is drawn for one message: the panels only, without their markup. *)
Inductive View :=
| StreamingView (thinkingPanel answer : option jsstring)
| UserBubble (text : jsstring)
| CompletedView (thinkingPanel : option jsstring) (answer : jsstring).

Definition shown (s : jsstring) : option jsstring :=
  if truthy s then Some s else None.

(** The body of [messages.map]. *)
Definition renderMessage (st : StreamingState) (isLastMessage : bool)
  (message : Message) : View :=
  let parsed :=
    match role message with
    | assistant => parseMessage (msgContent message)
    | _ => {| parsedThinking := None; parsedContent := msgContent message |}
    end in
  let isAssistant := match role message with assistant => true | _ => false end in
  if isAssistant && isLastMessage && (truthy (thinking st) || truthy (content st))
  then StreamingView (shown (thinking st)) (shown (content st))
  else match role message with
       | user => UserBubble (msgContent message)
       | _ =>
           CompletedView
             (match parsedThinking parsed with
              | Some t => shown t
              | None => None
              end)
             (parsedContent parsed)
       end.

(** ** What the statements speak of *)

(** A complete tagged region. *)
Definition region (inside : jsstring) : jsstring :=
  openTag ++ inside ++ closeTag.

(** The buffer holds an opening tag and, after it, a closing tag. *)
Definition hasTagPair (s : jsstring) : Prop :=
  exists p m q, s = p ++ openTag ++ m ++ closeTag ++ q.

(** The same, decided: some [<think>] of [s] has a [</think>] after it. *)
Fixpoint containsPair (s : jsstring) : bool :=
  (startsWith openTag s && includes closeTag (skipn (length openTag) s)) ||
  match s with
  | [] => false
  | _ :: s' => containsPair s'
  end.


(** A value of [messages] on which the effect returns at once: no message,
    or a last message that is not the assistant's. *)
Definition awaitsAssistant (messages : list Message) : bool :=
  match nth_error messages (length messages - 1)%nat with
  | Some lastMessage =>
      match role lastMessage with
      | assistant => false
      | _ => true
      end
  | None => true
  end.

(** ** The rest of the component *)

(** The heading of the thinking panel of a message drawn from
    [parseMessage]. *)
Definition completedLabel : jsstring := js "Thoughts".

(** The heading of the thinking panel of the message being streamed. *)
Definition summaryLabel (st : StreamingState) : jsstring :=
  if truthy (content st) then js "Thoughts" else js "Thinking".

(** [messages.map]: every message is drawn with its index compared to the
    index of the last one. *)
Definition renderMessages (st : StreamingState) (messages : list Message)
  : list View :=
  map (fun im : nat * Message =>
         renderMessage st (fst im =? length messages - 1)%nat (snd im))
      (combine (seq 0 (length messages)) messages).

(** A whole number as a template literal prints it: its decimal digits. *)
Definition numberToString (n : N) : jsstring :=
  js (DecimalString.NilZero.string_of_uint (N.to_uint n)).

(** [Number.MAX_SAFE_INTEGER]: up to it the division, [Math.floor] and [%]
    of JavaScript numbers are those of the integers. *)
Definition maxSafeInteger : N := 9007199254740991.

(** [formatThinkingTime], for a whole number of seconds. *)
Definition formatThinkingTime (seconds : N) : jsstring :=
  if seconds <? 60 then numberToString seconds ++ js " seconds"
  else
    let minutes := seconds / 60 in
    let remainingSeconds := seconds mod 60 in
    if 0 <? remainingSeconds
    then numberToString minutes ++ js " minute"
         ++ (if 1 <? minutes then js "s" else [])
         ++ js " " ++ numberToString remainingSeconds ++ js " seconds"
    else numberToString minutes ++ js " minute"
         ++ (if 1 <? minutes then js "s" else []).

(** The values [messages] takes while an answer streams after [history]:
    one for every chunk, each with the answer's text so far as the last
    message. *)
Fixpoint chunkEvents (history : list Message) (buffer : jsstring)
  (chunks : list jsstring) : list Event :=
  match chunks with
  | [] => []
  | chunk :: chunks' =>
      MessagesChanged (history ++ [mkMessage assistant (buffer ++ chunk)])
      :: chunkEvents history (buffer ++ chunk) chunks'
  end.

(** ** The examples of the specification *)

Example streamStep_example2 :
  streamStep initialState (js "<think>still working")
  = mkState (js "still working") [] true.
Proof. reflexivity. Qed.

Example streamStep_example3 :
  streamStep initialState (js "no tags at all")
  = mkState (js "no tags at all") [] true.
Proof. reflexivity. Qed.

Example feed_example4 :
  feed initialState [] [js "<th"; js "ink>reasoning</think>"; js "Hello!"]
  = [mkState (js "<th") [] true;
     mkState (js "reasoning") [] false;
     mkState (js "reasoning") (js "Hello!") false].
Proof. reflexivity. Qed.

Example streamStep_two_regions :
  streamStep initialState (js "<think>one</think> A <think>two</think> B")
  = mkState (js "one") (js "A <think>two</think> B") false.
Proof. reflexivity. Qed.

Example formatThinkingTime_examples :
  formatThinkingTime 0 = js "0 seconds"
  /\ formatThinkingTime 1 = js "1 seconds"
  /\ formatThinkingTime 60 = js "1 minute"
  /\ formatThinkingTime 61 = js "1 minute 1 seconds"
  /\ formatThinkingTime 120 = js "2 minutes"
  /\ formatThinkingTime 3725 = js "62 minutes 5 seconds".
Proof. repeat split. Qed.

Example renderMessage_example4 :
  renderMessage (mkState (js "reasoning") (js "Hello!") false) true
    (mkMessage assistant (js "<think>reasoning</think>Hello!"))
  = StreamingView (Some (js "reasoning")) (Some (js "Hello!")).
Proof. reflexivity. Qed.

(** ** Occurrences of a pattern *)

Lemma startsWith_app (pat r : jsstring) : startsWith pat (pat ++ r) = true.
Proof.
  induction pat as [|x pat IH]; simpl; [reflexivity|].
  now rewrite N.eqb_refl, IH.
Qed.

Lemma startsWith_inv (pat s : jsstring) :
  startsWith pat s = true -> s = pat ++ skipn (length pat) s.
Proof.
  revert s; induction pat as [|x pat IH]; intros s H; simpl; [reflexivity|].
  destruct s as [|y s]; simpl in H; [discriminate|].
  apply andb_true_iff in H as [Hxy H].
  apply N.eqb_eq in Hxy; subst y.
  simpl; f_equal; now apply IH.
Qed.

Lemma startsWith_iff (pat s : jsstring) :
  startsWith pat s = true <-> exists r, s = pat ++ r.
Proof.
  split.
  - intros H; eexists; now apply startsWith_inv.
  - intros [r ->]; apply startsWith_app.
Qed.

Lemma skipn_length_app (pat r : jsstring) : skipn (length pat) (pat ++ r) = r.
Proof. induction pat; simpl; auto. Qed.

(** A pattern at the front of [a] is at the front of every extension of [a]. *)
Lemma startsWith_extend (pat a b : jsstring) :
  startsWith pat a = true -> startsWith pat (a ++ b) = true.
Proof.
  intros H; apply startsWith_iff in H as [r ->].
  rewrite <- app_assoc; apply startsWith_app.
Qed.

Lemma includes_startsWith (pat s : jsstring) :
  startsWith pat s = true -> includes pat s = true.
Proof. intros H; destruct s; simpl in *; now rewrite H. Qed.

Lemma includes_iff (pat s : jsstring) :
  includes pat s = true <-> exists l r, s = l ++ pat ++ r.
Proof.
  split.
  - induction s as [|c s IH]; simpl; intros H.
    + rewrite orb_false_r in H.
      apply startsWith_iff in H as [r Hr]; now exists [], r.
    + apply orb_true_iff in H as [H|H].
      * apply startsWith_iff in H as [r Hr]; now exists [], r.
      * destruct (IH H) as (l & r & ->); now exists (c :: l), r.
  - intros (l & r & ->).
    induction l as [|c l IH].
    + rewrite app_nil_l; apply includes_startsWith, startsWith_app.
    + simpl; simpl in IH; rewrite IH; apply orb_true_r.
Qed.

Lemma includes_app_l (pat a b : jsstring) :
  includes pat a = true -> includes pat (a ++ b) = true.
Proof.
  intros H; apply includes_iff in H as (l & r & ->).
  apply includes_iff; exists l, (r ++ b); now rewrite <- !app_assoc.
Qed.

Lemma includes_app_r (pat a b : jsstring) :
  includes pat b = true -> includes pat (a ++ b) = true.
Proof.
  intros H; apply includes_iff in H as (l & r & ->).
  apply includes_iff; exists (a ++ l), r; now rewrite <- !app_assoc.
Qed.

Lemma includes_skipn (pat s : jsstring) (k : nat) :
  includes pat (skipn k s) = true -> includes pat s = true.
Proof.
  intros H; rewrite <- (firstn_skipn k s); now apply includes_app_r.
Qed.

Lemma includes_false_app (pat a b : jsstring) :
  includes pat (a ++ b) = false ->
  includes pat a = false /\ includes pat b = false.
Proof.
  intros H; split.
  - destruct (includes pat a) eqn:E; [|reflexivity].
    now rewrite (includes_app_l _ _ b E) in H.
  - destruct (includes pat b) eqn:E; [|reflexivity].
    now rewrite (includes_app_r _ a _ E) in H.
Qed.

Lemma splitFirst_none (pat s : jsstring) :
  splitFirst pat s = None <-> includes pat s = false.
Proof.
  induction s as [|c s IH]; simpl.
  - destruct (startsWith pat []); simpl; split; congruence.
  - destruct (startsWith pat (c :: s)); simpl; [split; congruence|].
    rewrite <- IH.
    destruct (splitFirst pat s) as [[? ?]|]; split; congruence.
Qed.

(** The split is at an occurrence, and no occurrence lies before it. *)
Lemma splitFirst_some (pat s before after : jsstring) :
  pat <> [] ->
  splitFirst pat s = Some (before, after) ->
  s = before ++ pat ++ after /\ includes pat before = false.
Proof.
  intros Hpat; revert before; induction s as [|c s IH]; simpl; intros before H.
  - destruct (startsWith pat []) eqn:E; [|discriminate].
    destruct pat; [congruence|discriminate].
  - destruct (startsWith pat (c :: s)) eqn:E.
    + injection H as <- <-; split.
      * now apply startsWith_inv.
      * destruct pat; [congruence|reflexivity].
    + destruct (splitFirst pat s) as [[b' a']|] eqn:E'; [|discriminate].
      injection H as <- <-.
      destruct (IH b' eq_refl) as [-> Hb]; split; [reflexivity|].
      simpl; rewrite Hb, orb_false_r.
      destruct (startsWith pat (c :: b')) eqn:E2; [|reflexivity].
      apply (startsWith_extend _ _ (pat ++ a')) in E2.
      simpl in E2; congruence.
Qed.

(** A pattern whose first code unit occurs nowhere else in it cannot overlap
    itself, so the text before its first occurrence is any text that does not
    hold it.  Both delimiters are such patterns: [<] is their first code unit
    only. *)
Section FirstOccurrence.
Variables (pat : jsstring) (h : codeUnit) (tl : jsstring).
Hypothesis pat_eq : pat = h :: tl.
Hypothesis head_unique : ~ In h tl.

Lemma startsWith_straddle (a r : jsstring) :
  a <> [] -> includes pat a = false ->
  startsWith pat (a ++ pat ++ r) = false.
Proof.
  intros Ha Hinc.
  destruct (startsWith pat (a ++ pat ++ r)) eqn:E; [exfalso|reflexivity].
  apply startsWith_iff in E as [r' E].
  apply app_eq_app in E as [l [[E1 E2]|[E1 E2]]].
  - assert (includes pat a = true) by (apply includes_iff; now exists [], l).
    congruence.
  - destruct l as [|x l].
    + rewrite app_nil_r in E1.
      assert (includes pat a = true).
      { apply includes_iff; exists [], []; now rewrite app_nil_r, <- E1. }
      congruence.
    + destruct a as [|c a]; [congruence|].
      rewrite pat_eq in E1, E2; simpl in E1, E2.
      injection E1 as _ E1; injection E2 as E2 _; subst x.
      apply head_unique; rewrite E1; apply in_or_app; right; now left.
Qed.

Lemma splitFirst_first (a r : jsstring) :
  includes pat a = false -> splitFirst pat (a ++ pat ++ r) = Some (a, r).
Proof.
  induction a as [|c a IH]; intros Hinc.
  - rewrite app_nil_l.
    destruct (pat ++ r) eqn:E; simpl; rewrite <- E, startsWith_app;
      now rewrite skipn_length_app.
  - assert (Hs := startsWith_straddle (c :: a) r ltac:(discriminate) Hinc).
    simpl in Hinc; apply orb_false_iff in Hinc as [_ Hinc].
    simpl in *; rewrite Hs, (IH Hinc); reflexivity.
Qed.

(** Every occurrence of the pattern ends at or after the end of the first
    one. *)
Lemma first_leftmost (pre r1 p r2 : jsstring) :
  includes pat pre = false ->
  pre ++ pat ++ r1 = p ++ pat ++ r2 ->
  exists d, r1 = d ++ r2.
Proof.
  intros Hpre E.
  apply app_eq_app in E as [l [[E1 E2]|[E1 E2]]].
  - destruct l as [|x l].
    + exists []; rewrite app_nil_l in E2; apply app_inv_head in E2.
      now symmetry.
    + exfalso.
      rewrite E1 in Hpre; apply includes_false_app in Hpre as [_ Hl].
      assert (Hs := startsWith_straddle (x :: l) r1 ltac:(discriminate) Hl).
      rewrite <- E2, startsWith_app in Hs; discriminate.
  - apply app_eq_app in E2 as [k [[E3 E4]|[E3 E4]]].
    + destruct l as [|x l].
      * exists []; rewrite app_nil_l in E3; subst k.
        apply app_inv_head in E4; now symmetry.
      * destruct k as [|y k].
        -- exists pat; rewrite app_nil_l in E4; now symmetry.
        -- exfalso.
           rewrite pat_eq in E3, E4; simpl in E3, E4.
           injection E3 as _ E3; injection E4 as E4 _; subst y.
           apply head_unique; rewrite E3; apply in_or_app; right; now left.
    + exists (k ++ pat); now rewrite <- app_assoc.
Qed.
End FirstOccurrence.

Lemma openTag_head : openTag = 60 :: js "think>" /\ ~ In 60 (js "think>").
Proof. split; [reflexivity|]; simpl; intuition discriminate. Qed.

Lemma closeTag_head : closeTag = 60 :: js "/think>" /\ ~ In 60 (js "/think>").
Proof. split; [reflexivity|]; simpl; intuition discriminate. Qed.

Lemma splitFirst_openTag (pre rest : jsstring) :
  includes openTag pre = false ->
  splitFirst openTag (pre ++ openTag ++ rest) = Some (pre, rest).
Proof.
  destruct openTag_head as [E H]; exact (splitFirst_first _ _ _ E H pre rest).
Qed.

Lemma splitFirst_closeTag (mid post : jsstring) :
  includes closeTag mid = false ->
  splitFirst closeTag (mid ++ closeTag ++ post) = Some (mid, post).
Proof.
  destruct closeTag_head as [E H]; exact (splitFirst_first _ _ _ E H mid post).
Qed.

(** ** The regular expression, by what it finds *)

Lemma thinkRegexAt_none (s : jsstring) :
  thinkRegexAt s = None <->
  startsWith openTag s && includes closeTag (skipn (length openTag) s) = false.
Proof.
  unfold thinkRegexAt.
  destruct (startsWith openTag s); simpl; [apply splitFirst_none|tauto].
Qed.

Lemma thinkRegexExec_none (s : jsstring) :
  thinkRegexExec s = None <-> containsPair s = false.
Proof.
  induction s as [|c s IH].
  - simpl; split; reflexivity.
  - cbn [thinkRegexExec containsPair].
    destruct (thinkRegexAt (c :: s)) as [[g a]|] eqn:E.
    + split; [discriminate|]. intros H.
      apply orb_false_iff in H as [H _].
      apply thinkRegexAt_none in H; congruence.
    + apply thinkRegexAt_none in E; rewrite E; simpl.
      rewrite <- IH.
      destruct (thinkRegexExec s) as [[[? ?] ?]|]; split; congruence.
Qed.

Lemma containsPair_iff (s : jsstring) :
  containsPair s = true <->
  exists p m q, s = p ++ openTag ++ m ++ closeTag ++ q.
Proof.
  split.
  - induction s as [|c s IH]; cbn [containsPair]; intros H.
    + discriminate.
    + apply orb_true_iff in H as [H|H].
      * apply andb_true_iff in H as [H1 H2].
        apply startsWith_inv in H1.
        apply includes_iff in H2 as (m & q & H2).
        exists [], m, q; rewrite H1, H2; reflexivity.
      * destruct (IH H) as (p & m & q & ->); now exists (c :: p), m, q.
  - intros (p & m & q & ->).
    induction p as [|c p IH].
    + rewrite app_nil_l.
      assert (H : startsWith openTag (openTag ++ m ++ closeTag ++ q)
                  && includes closeTag
                       (skipn (length openTag) (openTag ++ m ++ closeTag ++ q))
                  = true).
      { rewrite startsWith_app, skipn_length_app; simpl.
        apply includes_iff; now exists m, q. }
      destruct (openTag ++ m ++ closeTag ++ q) eqn:E;
        cbn [containsPair]; now rewrite H.
    + rewrite <- app_comm_cons; cbn [containsPair].
      rewrite IH; apply orb_true_r.
Qed.

(** The match starts at the first [<think>] and its group ends at the first
    [</think>] after it. *)
Lemma thinkRegexExec_first_pair (pre mid post : jsstring) :
  includes openTag pre = false -> includes closeTag mid = false ->
  thinkRegexExec (pre ++ openTag ++ mid ++ closeTag ++ post)
  = Some (pre, mid, post).
Proof.
  intros Hpre Hmid.
  induction pre as [|c pre IH].
  - rewrite app_nil_l.
    assert (H : thinkRegexAt (openTag ++ mid ++ closeTag ++ post)
                = Some (mid, post)).
    { unfold thinkRegexAt.
      rewrite startsWith_app, skipn_length_app.
      now apply splitFirst_closeTag. }
    destruct (openTag ++ mid ++ closeTag ++ post) eqn:E;
      cbn [thinkRegexExec]; now rewrite H.
  - destruct openTag_head as [E H].
    assert (Hs := startsWith_straddle _ _ _ E H (c :: pre)
                    (mid ++ closeTag ++ post) ltac:(discriminate) Hpre).
    simpl in Hpre; apply orb_false_iff in Hpre as [_ Hpre].
    rewrite <- app_comm_cons in *; cbn [thinkRegexExec].
    unfold thinkRegexAt at 1; rewrite Hs, (IH Hpre); reflexivity.
Qed.

Lemma thinkRegexExec_some (s pre mid post : jsstring) :
  thinkRegexExec s = Some (pre, mid, post) ->
  s = pre ++ openTag ++ mid ++ closeTag ++ post
  /\ includes openTag pre = false /\ includes closeTag mid = false.
Proof.
  revert pre; induction s as [|c s IH]; intros pre H.
  - discriminate.
  - cbn [thinkRegexExec] in H.
    destruct (thinkRegexAt (c :: s)) as [[g a]|] eqn:E.
    + injection H as <- <- <-.
      unfold thinkRegexAt in E.
      destruct (startsWith openTag (c :: s)) eqn:Es; [|discriminate].
      apply startsWith_inv in Es.
      apply splitFirst_some in E as [E Hg]; [|discriminate].
      rewrite Es at 1; rewrite E; repeat split; auto.
    + destruct (thinkRegexExec s) as [[[b g] a]|] eqn:E'; [|discriminate].
      injection H as <- <- <-.
      destruct (IH b eq_refl) as (-> & Hb & Hg).
      repeat split; auto.
      cbn [includes]; rewrite Hb, orb_false_r.
      destruct (startsWith openTag (c :: b)) eqn:Es; [exfalso|reflexivity].
      apply thinkRegexAt_none in E.
      apply startsWith_iff in Es as [x Es].
      rewrite app_comm_cons, Es, <- app_assoc in E.
      rewrite startsWith_app, skipn_length_app in E; cbn [andb] in E.
      assert (includes closeTag (x ++ openTag ++ g ++ closeTag ++ a) = true).
      { apply includes_iff; exists (x ++ openTag ++ g), a.
        now rewrite <- !app_assoc. }
      congruence.
Qed.

Lemma hasTagPair_first (s : jsstring) :
  hasTagPair s ->
  exists pre mid post,
    s = pre ++ openTag ++ mid ++ closeTag ++ post
    /\ includes openTag pre = false /\ includes closeTag mid = false.
Proof.
  intros H; apply containsPair_iff in H.
  destruct (thinkRegexExec s) as [[[pre mid] post]|] eqn:E.
  - exists pre, mid, post; now apply thinkRegexExec_some.
  - apply thinkRegexExec_none in E; congruence.
Qed.

Lemma hasTagPair_app (s t : jsstring) : hasTagPair s -> hasTagPair (s ++ t).
Proof.
  intros (p & m & q & ->); exists p, m, (q ++ t); now rewrite <- !app_assoc.
Qed.

(** ** Trimming *)

Lemma trimStart_white_prefix (w s : jsstring) :
  forallb isWhiteSpace w = true -> trimStart (w ++ s) = trimStart s.
Proof.
  induction w as [|c w IH]; simpl; intros H; [reflexivity|].
  apply andb_true_iff in H as [Hc H]; rewrite Hc; auto.
Qed.

Lemma trim_white_prefix (w s : jsstring) :
  forallb isWhiteSpace w = true -> trim (w ++ s) = trim s.
Proof. intros H; unfold trim; now rewrite trimStart_white_prefix. Qed.

(** Trimming stops at a code unit that is not white space. *)
Lemma trimStart_keeps (c : codeUnit) (a y : jsstring) :
  isWhiteSpace c = false -> exists a', trimStart (a ++ c :: y) = a' ++ c :: y.
Proof.
  intros Hc; induction a as [|x a [a' IH]]; simpl.
  - rewrite Hc; now exists [].
  - destruct (isWhiteSpace x); [now exists a'|now exists (x :: a)].
Qed.

Lemma trimEnd_keeps (d : codeUnit) (z b : jsstring) :
  isWhiteSpace d = false -> exists b', trimEnd (z ++ d :: b) = z ++ d :: b'.
Proof.
  intros Hd; unfold trimEnd.
  rewrite rev_app_distr; simpl; rewrite <- app_assoc; simpl.
  destruct (trimStart_keeps d (rev b) (rev z) Hd) as [a' ->].
  exists (rev a').
  rewrite rev_app_distr; simpl; rewrite rev_involutive, <- app_assoc.
  reflexivity.
Qed.

(** A piece of text that neither starts nor ends with white space survives
    the trimming of any text around it. *)
Lemma trim_keeps_infix (c d : codeUnit) (x1 x2 a b : jsstring) :
  c :: x1 = x2 ++ [d] ->
  isWhiteSpace c = false -> isWhiteSpace d = false ->
  exists l r, trim (a ++ (c :: x1) ++ b) = l ++ (c :: x1) ++ r.
Proof.
  intros E Hc Hd; unfold trim.
  destruct (trimStart_keeps c a (x1 ++ b) Hc) as [a' Ha].
  simpl; rewrite Ha.
  assert (E' : a' ++ c :: x1 ++ b = (a' ++ x2) ++ d :: b).
  { change (c :: x1 ++ b) with ((c :: x1) ++ b).
    rewrite E, <- !app_assoc; reflexivity. }
  rewrite E'.
  destruct (trimEnd_keeps d (a' ++ x2) b Hd) as [b' ->].
  exists a', b'.
  change (c :: x1 ++ b') with ((c :: x1) ++ b').
  rewrite E, <- !app_assoc; reflexivity.
Qed.

Lemma trim_keeps_openTag (a b : jsstring) :
  exists l r, trim (a ++ openTag ++ b) = l ++ openTag ++ r.
Proof.
  exact (trim_keeps_infix 60 62 (js "think>") (js "<think") a b
           eq_refl eq_refl eq_refl).
Qed.

Lemma trim_keeps_region (a m b : jsstring) :
  exists l r,
    trim (a ++ (openTag ++ m ++ closeTag) ++ b)
    = l ++ (openTag ++ m ++ closeTag) ++ r.
Proof.
  assert (E : 60 :: js "think>" ++ m ++ closeTag
              = (openTag ++ m ++ js "</think") ++ [62]).
  { rewrite <- !app_assoc; reflexivity. }
  exact (trim_keeps_infix 60 62 _ _ a b E eq_refl eq_refl).
Qed.

(** ** The step, branch by branch *)

Lemma streamStep_first_pair (st : StreamingState) (pre mid post : jsstring) :
  includes openTag pre = false -> includes closeTag mid = false ->
  streamStep st (pre ++ openTag ++ mid ++ closeTag ++ post)
  = mkState (trim mid) (trim (pre ++ post)) false.
Proof.
  intros Hpre Hmid; unfold streamStep, matchThink, replaceThink.
  now rewrite (thinkRegexExec_first_pair pre mid post Hpre Hmid).
Qed.

Lemma parseMessage_first_pair (pre mid post : jsstring) :
  includes openTag pre = false -> includes closeTag mid = false ->
  parseMessage (pre ++ openTag ++ mid ++ closeTag ++ post)
  = mkParsed (Some (trim mid)) (trim (pre ++ post)).
Proof.
  intros Hpre Hmid; unfold parseMessage, matchThink, replaceThink.
  now rewrite (thinkRegexExec_first_pair pre mid post Hpre Hmid).
Qed.

Lemma matchThink_none (s : jsstring) :
  matchThink s = None <-> ~ hasTagPair s.
Proof.
  unfold matchThink, hasTagPair; rewrite <- containsPair_iff.
  destruct (thinkRegexExec s) as [[[? ?] ?]|] eqn:E.
  - split; [discriminate|]. intros H; exfalso; apply H.
    destruct (containsPair s) eqn:C; [reflexivity|].
    apply thinkRegexExec_none in C; congruence.
  - apply thinkRegexExec_none in E; rewrite E; split; [discriminate|reflexivity].
Qed.

Lemma matchThink_none_no_close (s : jsstring) :
  includes closeTag s = false -> matchThink s = None.
Proof.
  intros H; apply matchThink_none; intros (p & m & q & E).
  assert (includes closeTag s = true); [|congruence].
  apply includes_iff; exists (p ++ openTag ++ m), q.
  rewrite E, <- !app_assoc; reflexivity.
Qed.

Lemma matchThink_none_no_open (s : jsstring) :
  includes openTag s = false -> matchThink s = None.
Proof.
  intros H; apply matchThink_none; intros (p & m & q & E).
  assert (includes openTag s = true); [|congruence].
  apply includes_iff; now exists p, (m ++ closeTag ++ q).
Qed.

Lemma streamingEffect_assistant (st : StreamingState) (history : list Message)
  (buffer : jsstring) :
  streamingEffect st (history ++ [mkMessage assistant buffer])
  = streamStep st buffer.
Proof.
  unfold streamingEffect.
  rewrite length_app; simpl.
  replace (length history + 1 - 1)%nat with (length history) by lia.
  rewrite nth_error_app2, Nat.sub_diag by lia; simpl.
  destruct (length history + 1 =? 0)%nat eqn:E; [|reflexivity].
  apply Nat.eqb_eq in E; lia.
Qed.

(** The first pair of a buffer is one pair only, and every other pair ends
    at or after its end. *)
Lemma first_pair_unique (pre mid post pre' mid' post' : jsstring) :
  pre ++ openTag ++ mid ++ closeTag ++ post
  = pre' ++ openTag ++ mid' ++ closeTag ++ post' ->
  includes openTag pre = false -> includes closeTag mid = false ->
  includes openTag pre' = false -> includes closeTag mid' = false ->
  pre' = pre /\ mid' = mid /\ post' = post.
Proof.
  intros E Hpre Hmid Hpre' Hmid'.
  pose proof (thinkRegexExec_first_pair pre mid post Hpre Hmid) as H.
  rewrite E, (thinkRegexExec_first_pair pre' mid' post' Hpre' Hmid') in H.
  injection H as -> -> ->; auto.
Qed.

Lemma first_pair_leftmost (pre mid post p a rest : jsstring) :
  includes openTag pre = false -> includes closeTag mid = false ->
  pre ++ openTag ++ mid ++ closeTag ++ post
  = p ++ openTag ++ a ++ closeTag ++ rest ->
  exists d, post = d ++ rest.
Proof.
  intros Hpre Hmid E.
  destruct openTag_head as [Eo Ho]; destruct closeTag_head as [Ec Hc].
  destruct (first_leftmost _ _ _ Eo Ho _ _ _ _ Hpre E) as [d1 E1].
  rewrite (app_assoc d1 a) in E1.
  exact (first_leftmost _ _ _ Ec Hc _ _ _ _ Hmid E1).
Qed.

(** ** The properties of the specification *)

(** C1.  Whatever the prior state, a buffer that holds an opening tag and a
    closing tag after it splits at its first opening tag and at the first
    closing tag after that one: [thinking] is the trimmed text between the
    two, [content] is the trimmed buffer without the tagged region, tags
    included, and [isThinking] is false.  In particular
    ["<think>step one</think>Final answer."] gives thinking ["step one"] and
    content ["Final answer."]. *)
Theorem streamStep_both_tags (st : StreamingState) :
  (forall b, hasTagPair b ->
     exists pre mid post,
       b = pre ++ openTag ++ mid ++ closeTag ++ post
       /\ includes openTag pre = false
       /\ includes closeTag mid = false
       /\ streamStep st b = mkState (trim mid) (trim (pre ++ post)) false)
  /\ streamStep st (js "<think>step one</think>Final answer.")
     = mkState (js "step one") (js "Final answer.") false.
Proof.
  split; [|reflexivity].
  intros b H.
  destruct (hasTagPair_first b H) as (pre & mid & post & -> & Hpre & Hmid).
  exists pre, mid, post; repeat split; auto.
  now apply streamStep_first_pair.
Qed.

Lemma streamStep_both_tags_witness :
  exists pre mid post,
    js "  <think> a </think> b " = pre ++ openTag ++ mid ++ closeTag ++ post
    /\ includes openTag pre = false
    /\ includes closeTag mid = false
    /\ streamStep initialState (js "  <think> a </think> b ")
       = mkState (trim mid) (trim (pre ++ post)) false.
Proof.
  apply (proj1 (streamStep_both_tags initialState)).
  exists (js "  "), (js " a "), (js " b "); reflexivity.
Defined.

(** C2, as the code has it.  Whatever the prior state, for a buffer that
    holds an opening tag and no closing tag, [thinking] is the trimmed buffer
    with its first opening tag taken out: the text before the tag stays in
    front of the text after it.  [content] is empty and [isThinking] is true.
    When only white space stands before the tag, [thinking] is the trimmed
    text after the tag. *)
Theorem streamStep_open_only (st : StreamingState) (b : jsstring) :
  includes openTag b = true -> includes closeTag b = false ->
  exists pre rest,
    b = pre ++ openTag ++ rest
    /\ includes openTag pre = false
    /\ streamStep st b = mkState (trim (pre ++ rest)) [] true
    /\ (forallb isWhiteSpace pre = true ->
        streamStep st b = mkState (trim rest) [] true).
Proof.
  intros Hopen Hclose.
  destruct (splitFirst openTag b) as [[pre rest]|] eqn:E.
  - apply splitFirst_some in E as [Hb Hpre]; [|discriminate].
    assert (Hstep : streamStep st b = mkState (trim (pre ++ rest)) [] true).
    { unfold streamStep, replaceFirst.
      rewrite (matchThink_none_no_close b Hclose), Hopen.
      rewrite Hb at 1; now rewrite (splitFirst_openTag pre rest Hpre). }
    exists pre, rest; repeat split; auto.
    intros Hw; now rewrite Hstep, trim_white_prefix.
  - apply splitFirst_none in E; congruence.
Qed.

Lemma streamStep_open_only_witness :
  exists pre rest,
    js " <think>still working" = pre ++ openTag ++ rest
    /\ includes openTag pre = false
    /\ streamStep initialState (js " <think>still working")
       = mkState (trim (pre ++ rest)) [] true
    /\ (forallb isWhiteSpace pre = true ->
        streamStep initialState (js " <think>still working")
        = mkState (trim rest) [] true).
Proof.
  apply (streamStep_open_only initialState (js " <think>still working"));
    reflexivity.
Defined.

(** C2, as stated, fails: text that stands before the opening tag is kept in
    [thinking].  The buffer ["Sure. <think>let me see"] holds an opening tag
    and no closing tag, the text after its opening tag is ["let me see"], and
    the step gives thinking ["Sure. let me see"]. *)
Lemma streamStep_open_only_keeps_text_before_tag :
  includes openTag (js "Sure. <think>let me see") = true
  /\ includes closeTag (js "Sure. <think>let me see") = false
  /\ js "Sure. <think>let me see" = js "Sure. " ++ openTag ++ js "let me see"
  /\ thinking (streamStep initialState (js "Sure. <think>let me see"))
     = js "Sure. let me see"
  /\ thinking (streamStep initialState (js "Sure. <think>let me see"))
     <> trim (js "let me see").
Proof.
  repeat split; try reflexivity.
  intros H; vm_compute in H; discriminate H.
Qed.

(** C3.  For a buffer with no opening tag and a prior state whose
    [isThinking] is true, as it is in the initial state, the step sets
    [thinking] to the trimmed buffer and [isThinking] stays true; [content]
    is the prior one. *)
Theorem streamStep_no_tag_thinking (st : StreamingState) (b : jsstring) :
  includes openTag b = false -> isThinking st = true ->
  streamStep st b = mkState (trim b) (content st) true.
Proof.
  intros Hopen Hst; unfold streamStep.
  now rewrite (matchThink_none_no_open b Hopen), Hopen, Hst.
Qed.

Lemma streamStep_no_tag_thinking_witness :
  isThinking initialState = true
  /\ streamStep initialState (js " Let me check ")
     = mkState (js "Let me check") [] true.
Proof.
  split; [reflexivity|].
  exact (streamStep_no_tag_thinking initialState (js " Let me check ")
           eq_refl eq_refl).
Defined.

(** C4.  For a buffer with no opening tag and a prior state whose
    [isThinking] is false, the step sets [content] to the trimmed buffer and
    leaves [thinking] and [isThinking] as they were. *)
Theorem streamStep_no_tag_answer (st : StreamingState) (b : jsstring) :
  includes openTag b = false -> isThinking st = false ->
  content (streamStep st b) = trim b
  /\ thinking (streamStep st b) = thinking st
  /\ isThinking (streamStep st b) = isThinking st.
Proof.
  intros Hopen Hst; unfold streamStep.
  rewrite (matchThink_none_no_open b Hopen), Hopen, Hst; auto.
Qed.

Lemma streamStep_no_tag_answer_witness :
  content (streamStep (mkState (js "why") (js "Hel") false) (js "Hello "))
  = js "Hello"
  /\ thinking (streamStep (mkState (js "why") (js "Hel") false) (js "Hello "))
     = js "why"
  /\ isThinking (streamStep (mkState (js "why") (js "Hel") false) (js "Hello "))
     = false.
Proof.
  exact (streamStep_no_tag_answer (mkState (js "why") (js "Hel") false)
           (js "Hello ") eq_refl eq_refl).
Defined.

(** C7.  Running the step a second time on the same buffer changes nothing,
    whatever the prior state and the buffer. *)
Theorem streamStep_idempotent (st : StreamingState) (b : jsstring) :
  streamStep (streamStep st b) b = streamStep st b.
Proof.
  unfold streamStep.
  destruct (matchThink b); [reflexivity|].
  destruct (includes openTag b); [reflexivity|].
  destruct (isThinking st) eqn:E; simpl; rewrite ?E; reflexivity.
Qed.

(** C5.  Only the first tagged region is recognised.  Take any buffer with
    two complete regions, [region a] and, somewhere after it, [region c].
    The step splits it at its first opening tag and at the first closing tag
    after that one (which are those of [region a] when no opening tag stands
    before it and [a] holds no closing tag): [thinking] is the trimmed inside
    of that first region alone and [content] is the trimmed rest, in which
    [region c] stands whole, tags included.  [parseMessage] splits a
    completed message in the same way. *)
Theorem first_region_only (st : StreamingState) (p a g c q : jsstring) :
  exists pre m1 tail,
    p ++ region a ++ g ++ region c ++ q = pre ++ region m1 ++ tail
    /\ includes openTag pre = false
    /\ includes closeTag m1 = false
    /\ (includes openTag p = false -> includes closeTag a = false ->
        pre = p /\ m1 = a /\ tail = g ++ region c ++ q)
    /\ streamStep st (p ++ region a ++ g ++ region c ++ q)
       = mkState (trim m1) (trim (pre ++ tail)) false
    /\ parseMessage (p ++ region a ++ g ++ region c ++ q)
       = mkParsed (Some (trim m1)) (trim (pre ++ tail))
    /\ exists l r, trim (pre ++ tail) = l ++ region c ++ r.
Proof.
  assert (E : p ++ region a ++ g ++ region c ++ q
              = p ++ openTag ++ a ++ closeTag ++ g ++ region c ++ q)
    by (unfold region; rewrite <- !app_assoc; reflexivity).
  rewrite E.
  assert (H : hasTagPair (p ++ openTag ++ a ++ closeTag ++ g ++ region c ++ q))
    by (now exists p, a, (g ++ region c ++ q)).
  destruct (hasTagPair_first _ H) as (pre & m1 & tail & E' & Hpre & Hm1).
  exists pre, m1, tail.
  split; [|split; [|split; [|split; [|split; [|split]]]]].
  - rewrite E'; unfold region; rewrite <- !app_assoc; reflexivity.
  - exact Hpre.
  - exact Hm1.
  - intros Hp Ha.
    exact (first_pair_unique p a (g ++ region c ++ q) pre m1 tail
             E' Hp Ha Hpre Hm1).
  - rewrite E'; now apply streamStep_first_pair.
  - rewrite E'; now apply parseMessage_first_pair.
  - symmetry in E'.
    destruct (first_pair_leftmost _ _ _ _ _ _ Hpre Hm1 E') as [d ->].
    replace (pre ++ d ++ g ++ region c ++ q)
      with ((pre ++ d ++ g) ++ region c ++ q)
      by (rewrite <- !app_assoc; reflexivity).
    apply trim_keeps_region.
Qed.

(** ** Cumulative buffers *)

(** Once the buffer holds a tagged pair, every later state of the message
    has [isThinking] false. *)
Lemma feed_after_pair (chunks : list jsstring) (st : StreamingState)
  (buffer : jsstring) :
  hasTagPair buffer ->
  forall s, In s (feed st buffer chunks) -> isThinking s = false.
Proof.
  revert st buffer; induction chunks as [|c chunks IH]; intros st buffer H s Hs.
  - destruct Hs.
  - pose proof (hasTagPair_app buffer c H) as H'.
    cbn [feed] in Hs; destruct Hs as [<-|Hs].
    + destruct (hasTagPair_first _ H') as (p & m & q & -> & Hp & Hm).
      now rewrite streamStep_first_pair.
    + exact (IH _ _ H' s Hs).
Qed.

(** The step gives [isThinking] false only on a buffer that holds a tagged
    pair, unless the prior state already had it false. *)
Lemma streamStep_false_inv (st : StreamingState) (buffer : jsstring) :
  isThinking (streamStep st buffer) = false ->
  hasTagPair buffer \/ isThinking st = false.
Proof.
  unfold streamStep.
  destruct (matchThink buffer) eqn:E.
  - intros _; left.
    destruct (containsPair buffer) eqn:C; [now apply containsPair_iff|].
    apply thinkRegexExec_none in C; unfold matchThink in E.
    now rewrite C in E.
  - destruct (includes openTag buffer); [discriminate|].
    destruct (isThinking st); cbn; auto.
Qed.

Lemma feed_latch (chunks : list jsstring) (st : StreamingState)
  (buffer : jsstring) (i j : nat) (si sj : StreamingState) :
  (isThinking st = false -> hasTagPair buffer) ->
  (i <= j)%nat ->
  nth_error (feed st buffer chunks) i = Some si ->
  nth_error (feed st buffer chunks) j = Some sj ->
  isThinking si = false -> isThinking sj = false.
Proof.
  revert st buffer i j si sj.
  induction chunks as [|c chunks IH];
    intros st buffer i j si sj Inv Hij Hi Hj Hsi.
  - destruct i; discriminate.
  - cbn [feed] in Hi, Hj.
    assert (Inv' : isThinking (streamStep st (buffer ++ c)) = false ->
                   hasTagPair (buffer ++ c)).
    { intros H; destruct (streamStep_false_inv _ _ H) as [H'|H']; [exact H'|].
      apply hasTagPair_app; auto. }
    destruct i as [|i], j as [|j]; simpl in Hi, Hj.
    + congruence.
    + injection Hi as <-.
      apply (feed_after_pair chunks (streamStep st (buffer ++ c)) (buffer ++ c)
               (Inv' Hsi) sj).
      eapply nth_error_In; eassumption.
    + lia.
    + apply (IH _ _ i j si sj Inv'); auto; lia.
Qed.

(** C6, as the code has it.  [isThinking] is a one-way latch over the
    evaluations of a message that is parsed from a state whose [isThinking]
    is true, as the initial state has it.  The chunks of the message are
    appended to the buffer one after the other and the step is run on every
    cumulative buffer.  Once one of these evaluations has given [isThinking]
    false, every later one gives false. *)
Theorem isThinking_latch (st0 : StreamingState) (chunks : list jsstring)
  (i j : nat) (si sj : StreamingState) :
  isThinking st0 = true ->
  (i <= j)%nat ->
  nth_error (feed st0 [] chunks) i = Some si ->
  nth_error (feed st0 [] chunks) j = Some sj ->
  isThinking si = false -> isThinking sj = false.
Proof.
  intros H0; apply feed_latch; congruence.
Qed.

Lemma isThinking_latch_witness :
  isThinking
    (nth 1 (feed initialState []
              [js "<th"; js "ink>reasoning</think>"; js "Hello"; js "!"])
       initialState) = false
  /\ isThinking
       (nth 3 (feed initialState []
                 [js "<th"; js "ink>reasoning</think>"; js "Hello"; js "!"])
          initialState) = false.
Proof.
  split; [reflexivity|].
  exact (isThinking_latch initialState
           [js "<th"; js "ink>reasoning</think>"; js "Hello"; js "!"]
           1 3 _ _ eq_refl ltac:(lia) eq_refl eq_refl eq_refl).
Defined.

(** C6, as stated, fails: the latch holds only from a state whose
    [isThinking] is true.  When an answer has left the state
    [{a, b, false}] and its stream has not come to its end, the next answer
    is parsed from that state: on its first text ["<th"] the step keeps
    [isThinking] false, and on ["<think>hm"] the step gives true. *)
Lemma latch_reverts_from_stale_state :
  run initialState
    [MessagesChanged [mkMessage user (js "Hi");
                      mkMessage assistant (js "<think>a</think>b")];
     MessagesChanged [mkMessage user (js "Hi");
                      mkMessage assistant (js "<think>a</think>b");
                      mkMessage user (js "again")]]
  = mkState (js "a") (js "b") false
  /\ feed (mkState (js "a") (js "b") false) [] [js "<th"; js "ink>hm"]
     = [mkState (js "a") (js "<th") false; mkState (js "hm") [] true]
  /\ map isThinking
       (feed (mkState (js "a") (js "b") false) [] [js "<th"; js "ink>hm"])
     = [false; true].
Proof. repeat split. Qed.

(** C8.  Once the buffer holds a tagged pair the split is settled: whatever
    is appended to the buffer, and whatever the prior states, [thinking] is
    the same and [isThinking] is false; only [content] follows the text
    that arrives after the closing tag. *)
Theorem both_tags_stable (st st' : StreamingState) (b s : jsstring) :
  hasTagPair b ->
  thinking (streamStep st' (b ++ s)) = thinking (streamStep st b)
  /\ isThinking (streamStep st b) = false
  /\ isThinking (streamStep st' (b ++ s)) = false
  /\ exists pre mid post,
       b = pre ++ openTag ++ mid ++ closeTag ++ post
       /\ content (streamStep st b) = trim (pre ++ post)
       /\ content (streamStep st' (b ++ s)) = trim (pre ++ post ++ s).
Proof.
  intros H.
  destruct (hasTagPair_first b H) as (pre & mid & post & -> & Hpre & Hmid).
  assert (E : (pre ++ openTag ++ mid ++ closeTag ++ post) ++ s
              = pre ++ openTag ++ mid ++ closeTag ++ post ++ s)
    by (rewrite <- !app_assoc; reflexivity).
  rewrite E, !streamStep_first_pair by assumption.
  repeat split; exists pre, mid, post; auto.
Qed.

Lemma both_tags_stable_witness :
  thinking (streamStep (mkState (js "reasoning") [] false)
              (js "<think>reasoning</think>" ++ js "Hello!"))
  = thinking (streamStep initialState (js "<think>reasoning</think>"))
  /\ isThinking (streamStep (mkState (js "reasoning") [] false)
                   (js "<think>reasoning</think>" ++ js "Hello!")) = false.
Proof.
  pose proof (both_tags_stable initialState (mkState (js "reasoning") [] false)
                (js "<think>reasoning</think>") (js "Hello!")
                (ex_intro _ [] (ex_intro _ (js "reasoning")
                   (ex_intro _ [] eq_refl)))) as H.
  split; [exact (proj1 H)|exact (proj1 (proj2 (proj2 H)))].
Defined.

(** ** Resets *)

Lemma streamingEffect_skip (st : StreamingState) (messages : list Message) :
  awaitsAssistant messages = true -> streamingEffect st messages = st.
Proof.
  unfold awaitsAssistant, streamingEffect; intros H.
  destruct (length messages =? 0)%nat; [reflexivity|].
  destruct (nth_error messages (length messages - 1)%nat) as [m|];
    [|reflexivity].
  destruct (role m); [reflexivity|discriminate|reflexivity].
Qed.

Lemma run_skip (st : StreamingState) (submits : list (list Message)) :
  forallb awaitsAssistant submits = true ->
  run st (map MessagesChanged submits) = st.
Proof.
  revert st; induction submits as [|m submits IH]; intros st H;
    [reflexivity|].
  simpl in H; apply andb_true_iff in H as [Hm H].
  unfold run in *; simpl; rewrite (streamingEffect_skip st m Hm); auto.
Qed.

(** C9, as the code has it.  The state is the default one when the
    component is mounted, and [onFinish] sets it to the default one whatever
    it was.  No other code resets it, so the parsing of an assistant message
    starts from the default state when, since the mount or since the last
    end of a stream, [messages] has only taken values on which the effect
    returns at once (the user's message being appended). *)
Theorem reset_on_mount_and_finish (st : StreamingState) (es : list Event)
  (submits : list (list Message)) :
  forallb awaitsAssistant submits = true ->
  initialState = mkState [] [] true
  /\ handle st StreamFinished = mkState [] [] true
  /\ run initialState (map MessagesChanged submits) = mkState [] [] true
  /\ run st (es ++ StreamFinished :: map MessagesChanged submits)
     = mkState [] [] true.
Proof.
  intros H; repeat split.
  - exact (run_skip initialState submits H).
  - unfold run; rewrite fold_left_app; cbn [fold_left handle onFinish].
    exact (run_skip _ submits H).
Qed.

Lemma reset_on_mount_and_finish_witness :
  run initialState
    ([MessagesChanged [mkMessage user (js "Hi")];
      MessagesChanged [mkMessage user (js "Hi");
                       mkMessage assistant (js "<think>a</think>b")]]
     ++ StreamFinished
     :: map MessagesChanged
          [[mkMessage user (js "Hi");
            mkMessage assistant (js "<think>a</think>b");
            mkMessage user (js "again")]])
  = mkState [] [] true.
Proof.
  exact (proj2 (proj2 (proj2
    (reset_on_mount_and_finish initialState
       [MessagesChanged [mkMessage user (js "Hi")];
        MessagesChanged [mkMessage user (js "Hi");
                         mkMessage assistant (js "<think>a</think>b")]]
       [[mkMessage user (js "Hi");
         mkMessage assistant (js "<think>a</think>b");
         mkMessage user (js "again")]]
       eq_refl)))).
Defined.

(** C9, as stated, fails: nothing resets the state when a new assistant
    message begins.  When the stream of an answer has not come to its end
    ([onFinish] has not run) and the user sends a new message, the answer to
    it is parsed from the state the earlier answer left: its first text
    ["Hey"] becomes [content] next to the earlier [thinking], where a step
    from the default state makes it [thinking]. *)
Lemma new_message_does_not_reset :
  run initialState
    [MessagesChanged [mkMessage user (js "Hi");
                      mkMessage assistant (js "<think>a</think>b")];
     MessagesChanged [mkMessage user (js "Hi");
                      mkMessage assistant (js "<think>a</think>b");
                      mkMessage user (js "again")]]
  = mkState (js "a") (js "b") false
  /\ handle (mkState (js "a") (js "b") false)
       (MessagesChanged [mkMessage user (js "Hi");
                         mkMessage assistant (js "<think>a</think>b");
                         mkMessage user (js "again");
                         mkMessage assistant (js "Hey")])
     = mkState (js "a") (js "Hey") false
  /\ streamStep initialState (js "Hey") = mkState (js "Hey") [] true.
Proof. repeat split. Qed.

(** ** Completed messages, as drawn *)

(** C10.  For a buffer with no tagged pair, [parseMessage] returns no
    [thinking] and the whole trimmed buffer as [content]; an opening tag of
    the buffer is still in that content.  Such a message, once it is no
    longer the one being streamed (it is not the last one, or [onFinish] has
    reset the state), is drawn with no thinking panel and with that content
    as its answer. *)
Theorem parseMessage_no_pair (b : jsstring) :
  ~ hasTagPair b ->
  parseMessage b = mkParsed None (trim b)
  /\ (includes openTag b = true ->
      exists l r, parsedContent (parseMessage b) = l ++ openTag ++ r)
  /\ (forall st,
        renderMessage st false (mkMessage assistant b)
        = CompletedView None (trim b))
  /\ (forall st isLastMessage,
        renderMessage (onFinish st) isLastMessage (mkMessage assistant b)
        = CompletedView None (trim b)).
Proof.
  intros H; apply matchThink_none in H.
  assert (E : parseMessage b = mkParsed None (trim b))
    by (unfold parseMessage; now rewrite H).
  repeat split.
  - exact E.
  - intros Hopen; rewrite E; cbn [parsedContent].
    apply includes_iff in Hopen as (l & r & ->); apply trim_keeps_openTag.
  - intros st; unfold renderMessage; cbn [role msgContent].
    rewrite E, andb_false_r; reflexivity.
  - intros st isLastMessage; unfold renderMessage, onFinish.
    cbn [role msgContent thinking content truthy orb].
    rewrite E, andb_false_r; reflexivity.
Qed.

Lemma parseMessage_no_pair_witness :
  parseMessage (js "<think>still working ")
  = mkParsed None (js "<think>still working").
Proof.
  refine (proj1 (parseMessage_no_pair (js "<think>still working ") _)).
  intros H; apply containsPair_iff in H; discriminate H.
Defined.

(** ** Further properties of the streaming step *)

(** A step on a longer buffer makes the step on the shorter one forgotten. *)
Lemma streamStep_absorb (st : StreamingState) (b c : jsstring) :
  streamStep (streamStep st b) (b ++ c) = streamStep st (b ++ c).
Proof.
  unfold streamStep at 1 3.
  destruct (matchThink (b ++ c)); [reflexivity|].
  destruct (includes openTag (b ++ c)) eqn:Hinc; [reflexivity|].
  apply includes_false_app in Hinc as [Hb _].
  unfold streamStep.
  rewrite (matchThink_none_no_open b Hb), Hb.
  destruct (isThinking st) eqn:E; simpl; rewrite ?E; reflexivity.
Qed.

(** X1.  The cuts between the chunks of a message do not matter: whatever
    the state the message starts from, the state after its first [i + 1]
    chunks is the state one step gives on their concatenation. *)
Theorem feed_is_one_step (st : StreamingState) (buffer : jsstring)
  (chunks : list jsstring) (i : nat) (s : StreamingState) :
  nth_error (feed st buffer chunks) i = Some s ->
  s = streamStep st (buffer ++ concat (firstn (S i) chunks)).
Proof.
  revert st buffer i; induction chunks as [|c chunks IH]; intros st buffer i H.
  - destruct i; discriminate.
  - cbn [feed] in H; destruct i as [|i]; simpl in H.
    + injection H as <-; simpl; now rewrite app_nil_r.
    + apply IH in H; rewrite H, streamStep_absorb.
      cbn [firstn concat]; now rewrite <- app_assoc.
Qed.

Lemma feed_is_one_step_witness :
  mkState (js "reasoning") (js "Hello!") false
  = streamStep initialState
      ([] ++ concat (firstn 3 [js "<th"; js "ink>reasoning</think>";
                               js "Hello!"])).
Proof.
  exact (feed_is_one_step initialState []
           [js "<th"; js "ink>reasoning</think>"; js "Hello!"] 2
           (mkState (js "reasoning") (js "Hello!") false) eq_refl).
Defined.

(** X2.  Once the buffer holds an opening tag, the state after the step is
    read off the buffer alone: the prior state, stale or not, has no part in
    it. *)
Theorem streamStep_forgets_state (st st' : StreamingState) (b : jsstring) :
  includes openTag b = true -> streamStep st b = streamStep st' b.
Proof.
  intros H; unfold streamStep.
  destruct (matchThink b); [reflexivity|]; now rewrite H.
Qed.

Lemma streamStep_forgets_state_witness :
  streamStep (mkState (js "old") (js "stale") false) (js "Hey <think>hm")
  = streamStep initialState (js "Hey <think>hm").
Proof.
  exact (streamStep_forgets_state (mkState (js "old") (js "stale") false)
           initialState (js "Hey <think>hm") eq_refl).
Defined.

(** *** Trimmed fields *)

Lemma trimStart_idem (s : jsstring) : trimStart (trimStart s) = trimStart s.
Proof.
  induction s as [|c s IH]; simpl; [reflexivity|].
  destruct (isWhiteSpace c) eqn:E; [exact IH|]; simpl; now rewrite E.
Qed.

Lemma trimEnd_idem (s : jsstring) : trimEnd (trimEnd s) = trimEnd s.
Proof. unfold trimEnd; now rewrite rev_involutive, trimStart_idem. Qed.

(** Cutting the end of a text leaves its start cut. *)
Lemma trimStart_trimEnd (s : jsstring) :
  trimStart s = s -> trimStart (trimEnd s) = trimEnd s.
Proof.
  destruct s as [|c s]; [reflexivity|].
  simpl; destruct (isWhiteSpace c) eqn:E.
  - intros H. exfalso.
    assert (Hlen : forall t, (length (trimStart t) <= length t)%nat).
    { induction t as [|x t IHt]; simpl; [lia|].
      destruct (isWhiteSpace x); simpl; lia. }
    specialize (Hlen s); rewrite H in Hlen; simpl in Hlen; lia.
  - intros _.
    destruct (trimEnd_keeps c [] s E) as [b' Hb]; simpl in Hb.
    rewrite Hb; simpl; now rewrite E.
Qed.

Lemma trim_idem (s : jsstring) : trim (trim s) = trim s.
Proof.
  unfold trim.
  rewrite (trimStart_trimEnd (trimStart s) (trimStart_idem s)).
  apply trimEnd_idem.
Qed.

Lemma streamStep_trimmed (st : StreamingState) (b : jsstring) :
  trim (thinking st) = thinking st /\ trim (content st) = content st ->
  trim (thinking (streamStep st b)) = thinking (streamStep st b)
  /\ trim (content (streamStep st b)) = content (streamStep st b).
Proof.
  intros [Ht Hc]; unfold streamStep.
  destruct (matchThink b); [|destruct (includes openTag b);
                              [|destruct (isThinking st)]];
    cbn [thinking content]; rewrite ?trim_idem; auto.
Qed.

(** X3.  In every run of the component from its mount, the two texts of
    the streaming state are trimmed: neither starts nor ends with white
    space, so trimming them again changes nothing. *)
Theorem run_fields_trimmed (es : list Event) :
  trim (thinking (run initialState es)) = thinking (run initialState es)
  /\ trim (content (run initialState es)) = content (run initialState es).
Proof.
  unfold run.
  assert (H0 : trim (thinking initialState) = thinking initialState
               /\ trim (content initialState) = content initialState)
    by (split; reflexivity).
  revert H0; generalize initialState as st.
  induction es as [|e es IH]; intros st H; [exact H|].
  simpl; apply IH.
  destruct e as [messages|]; [|split; reflexivity].
  cbn [handle]; unfold streamingEffect.
  destruct (length messages =? 0)%nat; [exact H|].
  destruct (nth_error messages (length messages - 1)%nat) as [m|]; [|exact H].
  destruct (role m); auto using streamStep_trimmed.
Qed.

Lemma run_thinking_no_content (es : list Event) (st : StreamingState) :
  (isThinking st = true -> content st = []) ->
  isThinking (fold_left handle es st) = true ->
  content (fold_left handle es st) = [].
Proof.
  revert st; induction es as [|e es IH]; intros st H; [exact H|].
  simpl; apply IH.
  destruct e as [messages|]; [|reflexivity].
  cbn [handle]; unfold streamingEffect.
  destruct (length messages =? 0)%nat; [exact H|].
  destruct (nth_error messages (length messages - 1)%nat) as [m|]; [|exact H].
  destruct (role m); auto.
  unfold streamStep.
  destruct (matchThink (msgContent m)); [discriminate|].
  destruct (includes openTag (msgContent m)); [reflexivity|].
  destruct (isThinking st) eqn:E; cbn [isThinking content]; auto.
  congruence.
Qed.

(** X4.  In every run of the component from its mount, a state whose
    [isThinking] is true has no answer text, and the thinking panel is then
    headed ["Thinking"], not ["Thoughts"]. *)
Theorem thinking_state_has_no_content (es : list Event) :
  isThinking (run initialState es) = true ->
  content (run initialState es) = []
  /\ summaryLabel (run initialState es) = js "Thinking".
Proof.
  intros H.
  assert (E : content (run initialState es) = [])
    by (apply run_thinking_no_content; auto).
  split; [exact E|]; unfold summaryLabel; now rewrite E.
Qed.

Lemma thinking_state_has_no_content_witness :
  content (run initialState
             [MessagesChanged [mkMessage user (js "Hi");
                               mkMessage assistant (js "<think>hm")]]) = []
  /\ summaryLabel (run initialState
                     [MessagesChanged [mkMessage user (js "Hi");
                                       mkMessage assistant (js "<think>hm")]])
     = js "Thinking".
Proof.
  exact (thinking_state_has_no_content
           [MessagesChanged [mkMessage user (js "Hi");
                             mkMessage assistant (js "<think>hm")]] eq_refl).
Defined.

(** *** What trimming removes *)

Lemma trimStart_decomp (s : jsstring) :
  exists w, s = w ++ trimStart s /\ forallb isWhiteSpace w = true.
Proof.
  induction s as [|c s (w & Hs & Hw)]; simpl.
  - now exists [].
  - destruct (isWhiteSpace c) eqn:E.
    + exists (c :: w); simpl; rewrite E, Hw; split; [now f_equal|reflexivity].
    + now exists [].
Qed.

Lemma trim_decomp (s : jsstring) : exists l r, s = l ++ trim s ++ r.
Proof.
  unfold trim, trimEnd.
  destruct (trimStart_decomp s) as (l & Hl & _).
  destruct (trimStart_decomp (rev (trimStart s))) as (r & Hr & _).
  exists l, (rev r).
  rewrite <- rev_app_distr, <- Hr, rev_involutive; exact Hl.
Qed.

Lemma includes_trim (pat s : jsstring) :
  includes pat s = false -> includes pat (trim s) = false.
Proof.
  intros H; destruct (trim_decomp s) as (l & r & E).
  rewrite E in H.
  apply includes_false_app in H as [_ H].
  now apply includes_false_app in H as [H _].
Qed.

Lemma forallb_white_rev (w : jsstring) :
  forallb isWhiteSpace w = true -> forallb isWhiteSpace (rev w) = true.
Proof.
  rewrite !forallb_forall; intros H x Hx; apply H; now apply in_rev.
Qed.

Lemma trimEnd_white_suffix (s w : jsstring) :
  forallb isWhiteSpace w = true -> trimEnd (s ++ w) = trimEnd s.
Proof.
  intros H; unfold trimEnd.
  now rewrite rev_app_distr, trimStart_white_prefix by now apply forallb_white_rev.
Qed.

Lemma trim_white (w : jsstring) :
  forallb isWhiteSpace w = true -> trim w = [].
Proof.
  intros H; rewrite <- (app_nil_r w), trim_white_prefix by assumption.
  reflexivity.
Qed.

Lemma white_has_no (c : codeUnit) (w : jsstring) :
  isWhiteSpace c = false -> forallb isWhiteSpace w = true -> ~ In c w.
Proof.
  intros Hc Hw Hin; rewrite forallb_forall in Hw.
  specialize (Hw c Hin); congruence.
Qed.

(** X5.  While a message streams and after it is complete, the same texts
    are shown.  For a buffer with a tagged pair, [parseMessage] returns the
    thinking and the content the streaming step gives, whatever the prior
    state.  The last assistant message is drawn from the streaming state
    while one of its two texts is not empty, and from [parseMessage] when
    [onFinish] has reset the state: the text of the thinking panel is the
    same in both, and the answer differs only in that an empty one is not
    drawn while streaming.  The heading of the panel is not the same in
    both: ["Thoughts"] for the message drawn from [parseMessage], and for
    the one drawn from the state ["Thoughts"] when the content is not empty
    and ["Thinking"] when it is. *)
Theorem stream_and_parse_agree (st : StreamingState) (b : jsstring) :
  hasTagPair b ->
  parseMessage b
  = mkParsed (Some (thinking (streamStep st b))) (content (streamStep st b))
  /\ renderMessage (streamStep st b) true (mkMessage assistant b)
     = (if truthy (thinking (streamStep st b))
           || truthy (content (streamStep st b))
        then StreamingView (shown (thinking (streamStep st b)))
                           (shown (content (streamStep st b)))
        else CompletedView None [])
  /\ renderMessage (onFinish (streamStep st b)) true (mkMessage assistant b)
     = CompletedView (shown (thinking (streamStep st b)))
                     (content (streamStep st b))
  /\ summaryLabel (streamStep st b)
     = (if truthy (content (streamStep st b))
        then completedLabel else js "Thinking")
  /\ completedLabel <> js "Thinking".
Proof.
  intros H.
  destruct (hasTagPair_first b H) as (pre & mid & post & -> & Hpre & Hmid).
  rewrite streamStep_first_pair by assumption.
  assert (E := parseMessage_first_pair pre mid post Hpre Hmid).
  split; [exact E|].
  unfold renderMessage, onFinish, summaryLabel.
  cbn [role msgContent thinking content andb orb truthy].
  rewrite E; cbn [parsedThinking parsedContent].
  split; [|split; [reflexivity|split; [reflexivity|discriminate]]].
  destruct (trim mid) as [|x t], (trim (pre ++ post)) as [|y u]; reflexivity.
Qed.

Example heading_differs_without_answer :
  summaryLabel (streamStep initialState (js "<think>x</think>"))
  = js "Thinking"
  /\ completedLabel = js "Thoughts".
Proof. split; reflexivity. Qed.

Lemma stream_and_parse_agree_witness :
  parseMessage (js "<think> why </think> Hello!")
  = mkParsed
      (Some (thinking (streamStep initialState
                         (js "<think> why </think> Hello!"))))
      (content (streamStep initialState (js "<think> why </think> Hello!"))).
Proof.
  exact (proj1 (stream_and_parse_agree initialState
                  (js "<think> why </think> Hello!")
                  (ex_intro _ [] (ex_intro _ (js " why ")
                     (ex_intro _ (js " Hello!") eq_refl))))).
Defined.

(** X6.  A buffer that holds nothing but an opening tag, with or without
    white space around it, leaves both texts of the state empty; the last
    assistant message is then not drawn from the state but from
    [parseMessage], which shows the bare tag [<think>] as the answer and no
    thinking panel. *)
Theorem bare_open_tag_is_drawn (st : StreamingState) (w1 w2 : jsstring) :
  forallb isWhiteSpace w1 = true -> forallb isWhiteSpace w2 = true ->
  streamStep st (w1 ++ openTag ++ w2) = mkState [] [] true
  /\ renderMessage (streamStep st (w1 ++ openTag ++ w2)) true
       (mkMessage assistant (w1 ++ openTag ++ w2))
     = CompletedView None openTag.
Proof.
  intros H1 H2.
  assert (Hslash : ~ In 47 (w1 ++ openTag ++ w2)).
  { intros Hin; apply in_app_or in Hin as [Hin|Hin].
    - now apply (white_has_no 47 w1).
    - apply in_app_or in Hin as [Hin|Hin].
      + unfold openTag in Hin; simpl in Hin; intuition discriminate.
      + now apply (white_has_no 47 w2). }
  assert (Hclose : includes closeTag (w1 ++ openTag ++ w2) = false).
  { destruct (includes closeTag (w1 ++ openTag ++ w2)) eqn:E; [|reflexivity].
    exfalso; apply Hslash.
    apply includes_iff in E as (l & r & ->).
    apply in_or_app; right; right; now left. }
  assert (Hw1 : includes openTag w1 = false).
  { destruct (includes openTag w1) eqn:E; [|reflexivity].
    exfalso; apply (white_has_no 60 w1); auto.
    apply includes_iff in E as (l & r & ->).
    apply in_or_app; right; now left. }
  assert (Hopen : includes openTag (w1 ++ openTag ++ w2) = true)
    by (apply includes_iff; now exists w1, w2).
  assert (Hno := matchThink_none_no_close _ Hclose).
  assert (Htrim : trim (w1 ++ openTag ++ w2) = openTag).
  { rewrite trim_white_prefix by assumption.
    unfold trim. change (trimStart (openTag ++ w2)) with (openTag ++ w2).
    now rewrite trimEnd_white_suffix. }
  assert (Hstep : streamStep st (w1 ++ openTag ++ w2) = mkState [] [] true).
  { unfold streamStep, replaceFirst.
    rewrite Hno, Hopen, (splitFirst_openTag w1 w2 Hw1); simpl.
    rewrite trim_white; [reflexivity|].
    now rewrite forallb_app, H1, H2. }
  split; [exact Hstep|].
  rewrite Hstep; unfold renderMessage, parseMessage.
  cbn [role msgContent thinking content andb orb truthy].
  now rewrite Hno, Htrim.
Qed.

Lemma bare_open_tag_is_drawn_witness :
  renderMessage (streamStep initialState (js " <think>" ++ [10])) true
    (mkMessage assistant (js " <think>" ++ [10]))
  = CompletedView None (js "<think>").
Proof.
  exact (proj2 (bare_open_tag_is_drawn initialState (js " ") [10]
                  eq_refl eq_refl)).
Defined.

(** X7.  The thinking text never holds a closing tag: the group of the
    regular expression stops at the first one.  This holds for the thinking
    [parseMessage] returns and for the one the streaming step gives on a
    buffer with a tagged pair. *)
Theorem thinking_has_no_closeTag (st : StreamingState) (b t : jsstring) :
  parsedThinking (parseMessage b) = Some t ->
  includes closeTag t = false
  /\ thinking (streamStep st b) = t
  /\ isThinking (streamStep st b) = false.
Proof.
  unfold parseMessage, streamStep, matchThink.
  destruct (thinkRegexExec b) as [[[pre mid] post]|] eqn:E; [|discriminate].
  cbn [parsedThinking thinking isThinking]; intros H; injection H as <-.
  apply thinkRegexExec_some in E as (_ & _ & Hmid).
  repeat split; now apply includes_trim.
Qed.

Lemma thinking_has_no_closeTag_witness :
  includes closeTag (js "a<think>b") = false
  /\ thinking (streamStep initialState (js "<think>a<think>b</think>c</think>"))
     = js "a<think>b"
  /\ isThinking
       (streamStep initialState (js "<think>a<think>b</think>c</think>"))
     = false.
Proof.
  exact (thinking_has_no_closeTag initialState
           (js "<think>a<think>b</think>c</think>") (js "a<think>b") eq_refl).
Defined.

(** ** Further properties of the effect and of the drawing *)

(** X8.  The effect reads the last message only: the messages before it have
    no part in the new state, and with no message at all the state is
    kept.  A last message that is not the assistant's keeps the state too. *)
Theorem streamingEffect_last_only (st : StreamingState)
  (history : list Message) (m : Message) :
  streamingEffect st (history ++ [m]) = streamingEffect st [m]
  /\ streamingEffect st [] = st
  /\ (role m <> assistant -> streamingEffect st (history ++ [m]) = st).
Proof.
  assert (E : streamingEffect st (history ++ [m]) = streamingEffect st [m]).
  { unfold streamingEffect.
    rewrite length_app; simpl.
    replace (length history + 1 - 1)%nat with (length history) by lia.
    rewrite nth_error_app2, Nat.sub_diag by lia; simpl.
    destruct (length history + 1 =? 0)%nat eqn:E; [|reflexivity].
    apply Nat.eqb_eq in E; lia. }
  repeat split; [exact E|].
  intros Hr; rewrite E; unfold streamingEffect; simpl.
  destruct (role m); congruence.
Qed.

Lemma nth_error_combine_seq (A : Type) (l : list A) (a i : nat) :
  nth_error (combine (seq a (length l)) l) i
  = option_map (fun x => ((a + i)%nat, x)) (nth_error l i).
Proof.
  revert a i; induction l as [|x l IH]; intros a i.
  - destruct i; reflexivity.
  - destruct i as [|i]; simpl.
    + now rewrite Nat.add_0_r.
    + rewrite IH; now rewrite Nat.add_succ_r.
Qed.

Lemma nth_error_renderMessages (st : StreamingState)
  (messages : list Message) (i : nat) :
  nth_error (renderMessages st messages) i
  = option_map (renderMessage st (i =? length messages - 1)%nat)
      (nth_error messages i).
Proof.
  unfold renderMessages.
  rewrite nth_error_map, nth_error_combine_seq.
  destruct (nth_error messages i); reflexivity.
Qed.

(** X9.  Only the last message can be drawn from the streaming state: every
    message before the last is drawn the same whatever the state is, a
    user's message as its text and any other one from [parseMessage] or,
    for a role that is not the assistant's, from its text as it is.  One
    view is drawn for each message. *)
Theorem earlier_messages_ignore_state (st st' : StreamingState)
  (messages : list Message) (i : nat) :
  (S i < length messages)%nat ->
  nth_error (renderMessages st messages) i
  = nth_error (renderMessages st' messages) i
  /\ nth_error (renderMessages st messages) i
     = option_map
         (fun m => match role m with
                   | user => UserBubble (msgContent m)
                   | assistant =>
                       CompletedView
                         (match parsedThinking (parseMessage (msgContent m)) with
                          | Some t => shown t
                          | None => None
                          end)
                         (parsedContent (parseMessage (msgContent m)))
                   | system => CompletedView None (msgContent m)
                   end)
         (nth_error messages i)
  /\ length (renderMessages st messages) = length messages.
Proof.
  intros Hi.
  assert (E : (i =? length messages - 1)%nat = false)
    by (apply Nat.eqb_neq; lia).
  rewrite !nth_error_renderMessages, E.
  split; [|split].
  - destruct (nth_error messages i) as [m|]; [|reflexivity]; simpl.
    unfold renderMessage; destruct (role m); reflexivity.
  - destruct (nth_error messages i) as [m|]; [|reflexivity]; simpl.
    unfold renderMessage; destruct (role m); reflexivity.
  - unfold renderMessages.
    now rewrite length_map, length_combine, length_seq, Nat.min_id.
Qed.

Lemma earlier_messages_ignore_state_witness :
  nth_error
    (renderMessages (mkState (js "why") (js "Hel") false)
       [mkMessage user (js " <think>x</think> ");
        mkMessage assistant (js "<think>a</think> b ");
        mkMessage user (js "again"); mkMessage assistant (js "Hel")]) 1
  = nth_error
      (renderMessages initialState
         [mkMessage user (js " <think>x</think> ");
          mkMessage assistant (js "<think>a</think> b ");
          mkMessage user (js "again"); mkMessage assistant (js "Hel")]) 1.
Proof.
  exact (proj1 (earlier_messages_ignore_state
                  (mkState (js "why") (js "Hel") false) initialState
                  [mkMessage user (js " <think>x</think> ");
                   mkMessage assistant (js "<think>a</think> b ");
                   mkMessage user (js "again"); mkMessage assistant (js "Hel")]
                  1 ltac:(simpl; lia))).
Defined.

(** ** The thinking time, as text *)

Lemma js_inj (s s' : string) : js s = js s' -> s = s'.
Proof.
  revert s'; induction s as [|a s IH]; intros [|a' s'] H; try discriminate.
  - reflexivity.
  - simpl in H; injection H as Ha Hs.
    rewrite <- (ascii_N_embedding a), <- (ascii_N_embedding a'), Ha.
    f_equal; auto.
Qed.

Lemma numberToString_inj (n n' : N) :
  numberToString n = numberToString n' -> n = n'.
Proof.
  assert (Hnil : forall k, N.to_uint k <> Decimal.Nil).
  { intros [|p]; [discriminate|apply DecimalPos.Unsigned.to_uint_nonnil]. }
  intros H; apply js_inj in H.
  apply (f_equal DecimalString.NilZero.uint_of_string) in H.
  rewrite !DecimalString.NilZero.usu in H by apply Hnil.
  injection H as H; now apply DecimalN.Unsigned.to_uint_inj.
Qed.

(** The digits of a number hold no space. *)
Lemma numberToString_no_space (n : N) : ~ In 32 (numberToString n).
Proof.
  unfold numberToString.
  assert (H : forall d, ~ In 32 (js (DecimalString.NilEmpty.string_of_uint d))).
  { induction d; simpl; intuition discriminate. }
  destruct (N.to_uint n) as [|d|d|d|d|d|d|d|d|d|d];
    [simpl; intuition discriminate
    |exact (H (Decimal.D0 d))|exact (H (Decimal.D1 d))
    |exact (H (Decimal.D2 d))|exact (H (Decimal.D3 d))
    |exact (H (Decimal.D4 d))|exact (H (Decimal.D5 d))
    |exact (H (Decimal.D6 d))|exact (H (Decimal.D7 d))
    |exact (H (Decimal.D8 d))|exact (H (Decimal.D9 d))].
Qed.

Lemma split_at_first (c : codeUnit) (a a' r r' : jsstring) :
  ~ In c a -> ~ In c a' -> a ++ c :: r = a' ++ c :: r' -> a = a' /\ r = r'.
Proof.
  revert a'; induction a as [|x a IH]; intros [|x' a'] Ha Ha' E; simpl in *.
  - injection E as E; auto.
  - injection E as E _; subst x'; tauto.
  - injection E as E _; subst x; tauto.
  - injection E as Ex E; subst x'.
    destruct (IH a') as [-> ->]; tauto.
Qed.

(** The text starts with a number and a space; what follows tells seconds
    from minutes. *)
Lemma formatThinkingTime_shape (seconds : N) :
  (seconds < 60
   /\ formatThinkingTime seconds
      = numberToString seconds ++ 32 :: js "seconds")
  \/ (60 <= seconds
      /\ formatThinkingTime seconds
         = numberToString (seconds / 60)
           ++ 32 :: js "minute"
           ++ (if 1 <? seconds / 60 then js "s" else [])
           ++ (if 0 <? seconds mod 60
               then 32 :: numberToString (seconds mod 60) ++ js " seconds"
               else [])).
Proof.
  unfold formatThinkingTime.
  destruct (seconds <? 60) eqn:E.
  - left; split; [now apply N.ltb_lt|reflexivity].
  - right; split; [now apply N.ltb_ge|].
    destruct (0 <? seconds mod 60); [reflexivity|].
    now rewrite app_nil_r.
Qed.

(** X10.  Two different durations are never written as the same text: from
    the text of a whole number of seconds, the number can be told. *)
Theorem formatThinkingTime_inj (s s' : N) :
  s <= maxSafeInteger -> s' <= maxSafeInteger ->
  formatThinkingTime s = formatThinkingTime s' -> s = s'.
Proof.
  intros _ _ H.
  destruct (formatThinkingTime_shape s) as [[Hs E]|[Hs E]],
           (formatThinkingTime_shape s') as [[Hs' E']|[Hs' E']];
    rewrite E, E' in H;
    apply split_at_first in H as [Hn Hr];
    try apply numberToString_no_space.
  - now apply numberToString_inj.
  - discriminate Hr.
  - discriminate Hr.
  - apply numberToString_inj in Hn.
    rewrite Hn in Hr.
    apply (app_inv_head (js "minute")) in Hr.
    apply app_inv_head in Hr.
    assert (Hm : s mod 60 = s' mod 60).
    { destruct (0 <? s mod 60) eqn:Z, (0 <? s' mod 60) eqn:Z';
        try discriminate Hr.
      - injection Hr as Hr; apply app_inv_tail in Hr.
        now apply numberToString_inj.
      - apply N.ltb_ge in Z, Z'; apply N.le_0_r in Z, Z'; congruence. }
    rewrite (N.div_mod s 60), (N.div_mod s' 60) by discriminate.
    now rewrite Hn, Hm.
Qed.

Lemma formatThinkingTime_inj_witness :
  formatThinkingTime 3725 = js "62 minutes 5 seconds" /\ 3725 = 62 * 60 + 5.
Proof.
  split; [reflexivity|].
  exact (formatThinkingTime_inj 3725 (62 * 60 + 5)
           ltac:(discriminate) ltac:(discriminate) eq_refl).
Defined.

(** ** A whole answer *)

Lemma run_chunkEvents (st : StreamingState) (history : list Message)
  (buffer : jsstring) (chunks : list jsstring) :
  chunks <> [] ->
  run st (chunkEvents history buffer chunks)
  = streamStep st (buffer ++ concat chunks).
Proof.
  revert st buffer; induction chunks as [|c chunks IH]; intros st buffer H;
    [congruence|].
  unfold run in *; cbn [chunkEvents fold_left handle concat].
  rewrite streamingEffect_assistant.
  destruct chunks as [|c' chunks].
  - simpl; now rewrite app_nil_r.
  - rewrite IH by discriminate.
    now rewrite streamStep_absorb, <- app_assoc.
Qed.

(** X11.  An answer that streams after the end of the stream before it is
    parsed as if it came whole to a component just mounted: whatever
    happened before [onFinish], and however the answer is cut into chunks,
    once the user's message is appended and the chunks have arrived, the
    state is the one a single step from the initial state gives on the whole
    text. *)
Theorem answer_after_finish (st : StreamingState) (es : list Event)
  (submits : list (list Message)) (history : list Message)
  (chunks : list jsstring) :
  forallb awaitsAssistant submits = true -> chunks <> [] ->
  run st (es ++ StreamFinished
             :: map MessagesChanged submits
             ++ chunkEvents history [] chunks)
  = streamStep initialState (concat chunks).
Proof.
  intros Hs Hc; unfold run.
  rewrite fold_left_app; cbn [fold_left handle onFinish].
  rewrite fold_left_app.
  pose proof (run_skip (onFinish (fold_left handle es st)) submits Hs) as E.
  unfold run in E; rewrite E.
  exact (run_chunkEvents initialState history [] chunks Hc).
Qed.

Lemma answer_after_finish_witness :
  run (mkState (js "old") (js "stale") false)
    ([] ++ StreamFinished
        :: map MessagesChanged [[mkMessage user (js "Hi")]]
        ++ chunkEvents [mkMessage user (js "Hi")] []
             [js "<th"; js "ink>reasoning</think>"; js "Hello!"])
  = streamStep initialState
      (concat [js "<th"; js "ink>reasoning</think>"; js "Hello!"]).
Proof.
  exact (answer_after_finish (mkState (js "old") (js "stale") false) []
           [[mkMessage user (js "Hi")]] [mkMessage user (js "Hi")]
           [js "<th"; js "ink>reasoning</think>"; js "Hello!"]
           eq_refl ltac:(discriminate)).
Defined.

(** X12.  Answer mode is left again when an opening tag arrives.  From a
    state whose [isThinking] is false, a buffer with no opening tag is taken
    as content; when the buffer then grows to hold an opening tag and no
    closing tag, the step goes back to thinking mode: [isThinking] is true,
    the content is emptied, and the whole text, the tag taken out, is the
    thinking. *)
Theorem late_open_tag_reopens (st : StreamingState) (b c : jsstring) :
  isThinking st = false ->
  includes openTag b = false ->
  includes openTag (b ++ c) = true ->
  includes closeTag (b ++ c) = false ->
  streamStep st b = mkState (thinking st) (trim b) false
  /\ streamStep (streamStep st b) (b ++ c)
     = mkState (trim (replaceFirst openTag [] (b ++ c))) [] true.
Proof.
  intros Hst Hb Hopen Hclose; split.
  - unfold streamStep.
    now rewrite (matchThink_none_no_open b Hb), Hb, Hst.
  - rewrite streamStep_absorb; unfold streamStep.
    now rewrite (matchThink_none_no_close _ Hclose), Hopen.
Qed.

Lemma late_open_tag_reopens_witness :
  streamStep (mkState (js "a") (js "b") false) (js "Hey ")
  = mkState (js "a") (js "Hey") false
  /\ streamStep (streamStep (mkState (js "a") (js "b") false) (js "Hey "))
       (js "Hey " ++ js "<think>hm")
     = mkState (js "Hey hm") [] true.
Proof.
  exact (late_open_tag_reopens (mkState (js "a") (js "b") false)
           (js "Hey ") (js "<think>hm") eq_refl eq_refl eq_refl eq_refl).
Defined.
